(** * Domain cart of [challenge.tsx]

    A shallow embedding of the [Challenge] component
    (src/components/challenge.tsx): its three pieces of React state, the
    event handlers that update them, and the JavaScript string and array
    methods those handlers call.

    Strings.  A JavaScript string is a sequence of UTF-16 code units.  The
    model is Rocq's [string] with every character read as the code unit of
    the same number, U+0000 to U+00FF (Latin-1).  [trim] and [toLowerCase]
    are written out for exactly that range; code units above U+00FF (where
    [toLowerCase] needs the Unicode tables) are outside the model.

    React state.  [useState] cells are the fields of [State].  A handler
    reads the cells of the render it was created in and calls setters; the
    embedding passes the state explicitly.  The only suspension point is
    the [await] in [addDomain], modelled by [AddRun].

    Arrays.  For events that arrive while an add is suspended, the second
    part of the file keeps the arrays in a store ([Config], [step]): the
    [domains] cell and every suspended add hold references, and the sort
    of [keepBestDomains] writes through them.  [step_snapshot] ties that
    model to the handlers. *)

From Stdlib Require Import String Ascii List ZArith NArith Bool Lia.
From Stdlib Require Import Sorted Permutation.
Import ListNotations.

Local Open Scope string_scope.
Local Open Scope Z_scope.

(** ** JavaScript host functions used by the component *)

Module JS.

(** Code unit of a character, as a number. *)
Definition code (c : ascii) : N := N_of_ascii c.

(** WhiteSpace and LineTerminator code units below U+0100: TAB, LF, VT, FF,
    CR, SPACE and NO-BREAK SPACE.  These are what [String.prototype.trim]
    strips. *)
Definition isWhiteSpace (c : ascii) : bool :=
  let n := code c in
  ((9 <=? n) && (n <=? 13) || (n =? 32) || (n =? 160))%N.

Fixpoint trimStart (s : string) : string :=
  match s with
  | EmptyString => EmptyString
  | String c t => if isWhiteSpace c then trimStart t else s
  end.

Fixpoint trimEnd (s : string) : string :=
  match s with
  | EmptyString => EmptyString
  | String c t =>
      match trimEnd t with
      | EmptyString => if isWhiteSpace c then EmptyString else String c EmptyString
      | r => String c r
      end
  end.

(** [String.prototype.trim] *)
Definition trim (s : string) : string := trimEnd (trimStart s).

(** Upper-case letters below U+0100: A-Z, and the Latin-1 capitals
    U+00C0-U+00D6 and U+00D8-U+00DE (U+00D7 is the multiplication sign). *)
Definition isUpper (c : ascii) : bool :=
  let n := code c in
  ((65 <=? n) && (n <=? 90) || (192 <=? n) && (n <=? 214)
   || (216 <=? n) && (n <=? 222))%N.

Definition lowerChar (c : ascii) : ascii :=
  if isUpper c then ascii_of_N (code c + 32) else c.

(** [String.prototype.toLowerCase] *)
Fixpoint toLowerCase (s : string) : string :=
  match s with
  | EmptyString => EmptyString
  | String c t => String (lowerChar c) (toLowerCase t)
  end.

(** [String.prototype.includes]: the needle occurs at some position. *)
Fixpoint includes (s needle : string) : bool :=
  String.prefix needle s
  || match s with
     | EmptyString => false
     | String _ t => includes t needle
     end.

(** [s] ends with the literal [suffix]: what a regular expression
    [/suffix$/] without flags tests. *)
Fixpoint endsWith (s suffix : string) : bool :=
  String.eqb s suffix
  || match s with
     | EmptyString => false
     | String _ t => endsWith t suffix
     end.

(** [String.prototype.split] with a one-character separator.  The result
    is never empty: a string without the separator is its own only piece. *)
Fixpoint split (sep : ascii) (s : string) : list string :=
  match s with
  | EmptyString => [EmptyString]
  | String c t =>
      if Ascii.eqb c sep then EmptyString :: split sep t
      else match split sep t with
           | [] => [String c EmptyString]
           | piece :: rest => String c piece :: rest
           end
  end.

(** [Array.prototype.pop], result only: the last element, [undefined]
    ([None]) on an empty array. *)
Fixpoint pop {A : Type} (l : list A) : option A :=
  match l with
  | [] => None
  | [x] => Some x
  | _ :: t => pop t
  end.

(** [x || ''] on an optional string: [undefined] and the empty string are
    both falsy. *)
Definition orEmpty (x : option string) : string :=
  match x with
  | Some s => s
  | None => EmptyString
  end.

(** [x || y] on numbers: [y] when [x] is zero. *)
Definition orNum (x y : Z) : Z := if x =? 0 then y else x.

(** [Array.prototype.some] and [Array.prototype.filter] *)
Definition some {A : Type} (p : A -> bool) (l : list A) : bool := existsb p l.
Definition filter {A : Type} (p : A -> bool) (l : list A) : list A :=
  List.filter p l.

(** [Array.prototype.sort] with a comparator.  The comparator's result is
    positive when its first argument has to come after its second.
    ECMAScript requires the sort to be stable, so for a consistent
    comparator the result is the one stable arrangement; it is computed
    here by insertion from the right: an element moves past exactly the
    elements it is strictly greater than. *)
Section Sort.
Context {A : Type} (compareFn : A -> A -> Z).

Fixpoint insert (x : A) (l : list A) : list A :=
  match l with
  | [] => [x]
  | y :: t => if compareFn x y >? 0 then y :: insert x t else x :: l
  end.

Fixpoint sort (l : list A) : list A :=
  match l with
  | [] => []
  | x :: t => insert x (sort t)
  end.
End Sort.

(** [Array.prototype.slice(0, end)] for an integer [end]: a negative [end]
    counts from the back, and the bounds are clamped to the array. *)
Definition slice0 {A : Type} (l : list A) (end_ : Z) : list A :=
  let len := Z.of_nat (List.length l) in
  let final := if end_ <? 0 then Z.max (len + end_) 0 else Z.min end_ len in
  firstn (Z.to_nat final) l.

(** [Array.prototype.join]: the elements with the separator between
    neighbours; the empty string for an empty array. *)
Fixpoint join (sep : string) (l : list string) : string :=
  match l with
  | [] => EmptyString
  | [x] => x
  | x :: t => x ++ sep ++ join sep t
  end.

End JS.

(** ** The component's data *)

(** [interface Domain] *)
Record Domain : Type := mkDomain {
  name : string;
  isAvailable : bool
}.

(** The three [useState] cells of [Challenge]. *)
Record State : Type := mkState {
  domainInput : string;
  domains : list Domain;
  error : option string
}.

(** Initial values of the cells. *)
Definition initialState : State := mkState "" [] None.

Definition setDomainInput (v : string) (s : State) : State :=
  mkState v (domains s) (error s).
Definition setDomains (v : list Domain) (s : State) : State :=
  mkState (domainInput s) v (error s).
Definition setError (v : option string) (s : State) : State :=
  mkState (domainInput s) (domains s) v.

Definition invalidFormatMessage : string :=
  "Invalid domain format. Only .com, .xyz, and .app are allowed.".
Definition duplicateMessage : string := "Domain already in cart.".

(** ** Validation and the add operation *)

(** The test [/\.(com|xyz|app)$/.test(s)]. *)
Definition tldRegexTest (s : string) : bool :=
  JS.endsWith s ".com" || JS.endsWith s ".xyz" || JS.endsWith s ".app".

(** [validateDomain]: the verdict and the state after its [setError]. *)
Definition validateDomain (domain : string) (s : State) : bool * State :=
  let lowerCaseDomain := JS.toLowerCase domain in
  let isValid :=
    tldRegexTest lowerCaseDomain
    && negb (JS.includes lowerCaseDomain "https://") in
  if negb isValid
  then (isValid, setError (Some invalidFormatMessage) s)
  else (isValid, setError None s).

(** The three ways [addDomain] ends: the return after a failed validation,
    the return after the duplicate test, and the append (whose toast shows
    the name and its availability). *)
Inductive AddOutcome : Type :=
| RejectedInvalidFormat
| RejectedDuplicate
| Added (d : Domain).

(** A run of the async function [addDomain] up to its [await].  Either it
    returned before awaiting, or it is suspended on
    [isDomainAvailable name]: [resume isAvailable cur] is the rest of the
    function, applying its setters to the state [cur] current when the
    promise resolves.  The values the rest uses ([domains]) are those
    captured when the function was called. *)
Inductive AddRun : Type :=
| Returned (s' : State) (o : AddOutcome)
| Awaiting (s' : State) (name : string)
           (resume : bool -> State -> State * AddOutcome).

Definition addDomain (s : State) : AddRun :=
  let domain := JS.toLowerCase (JS.trim (domainInput s)) in
  let '(valid, s1) := validateDomain domain s in
  if negb valid then Returned s1 RejectedInvalidFormat
  else if JS.some (fun d => String.eqb (name d) domain) (domains s)
  then Returned (setError (Some duplicateMessage) s1) RejectedDuplicate
  else Awaiting s1 domain (fun isAvailable cur =>
         let d := mkDomain domain isAvailable in
         (setDomainInput "" (setDomains (domains s ++ [d]) cur), Added d)).

(** [addDomain] run to completion against an availability oracle, with
    nothing else happening while it is suspended.  The third component
    lists the names the oracle was asked about. *)
Definition addDomainWith (isDomainAvailable : string -> bool) (s : State)
  : State * AddOutcome * list string :=
  match addDomain s with
  | Returned s' o => (s', o, [])
  | Awaiting s' domain resume =>
      (resume (isDomainAvailable domain) s', [domain])
  end.

(** ** Cart operations *)

(** [removeDomain] *)
Definition removeDomain (domainToRemove : string) (s : State) : State :=
  setDomains
    (JS.filter (fun d => negb (String.eqb (name d) domainToRemove)) (domains s))
    s.

(** [clearCart] *)
Definition clearCart (s : State) : State := setDomains [] s.

(** [removeUnavailableDomains] *)
Definition removeUnavailableDomains (s : State) : State :=
  setDomains (JS.filter isAvailable (domains s)) s.

(** The inner function [tldPriority] of the comparator. *)
Definition tldPriority (tld : string) : Z :=
  if String.eqb tld ".com" then 1
  else if String.eqb tld ".app" then 2
  else 3.

(** [name.split('.').pop() || ''] *)
Definition lastLabel (n : string) : string :=
  JS.orEmpty (JS.pop (JS.split "." n)).

(** The comparator passed to [sort] in [keepBestDomains]. *)
Definition compareDomains (a b : Domain) : Z :=
  let aTld := lastLabel (name a) in
  let bTld := lastLabel (name b) in
  JS.orNum (tldPriority aTld - tldPriority bTld)
           (Z.of_nat (String.length (name a))
            - Z.of_nat (String.length (name b))).

(** [keepBestDomains].  [sort] rearranges the array held in the state in
    place and returns it; the cell then receives a fresh array, the slice. *)
Definition keepBestDomains (numDomainsRequired : Z) (s : State) : State :=
  let sortedDomains := JS.sort compareDomains (domains s) in
  setDomains (JS.slice0 sortedDomains numDomainsRequired) s.

(** ** Purchase *)

(** [isPurchaseDisabled], the [isDisabled] attribute of the Purchase
    button. *)
Definition isPurchaseDisabled (numDomainsRequired : Z) (s : State) : bool :=
  negb (Z.of_nat (List.length (domains s)) =? numDomainsRequired).

(** What a purchase attempt comes to. *)
Inductive PurchaseResult : Type :=
| ButtonDisabled
| AlertRemoveUnavailable
| Proceeds.

(** [handlePurchase]: alert and return when some domain is unavailable,
    else fall through to the purchase logic. *)
Definition handlePurchase (s : State) : PurchaseResult :=
  if JS.some (fun domain => negb (isAvailable domain)) (domains s)
  then AlertRemoveUnavailable
  else Proceeds.

(** A click on the Purchase button: a disabled button does not call its
    [onClick] handler. *)
Definition clickPurchase (numDomainsRequired : Z) (s : State) : PurchaseResult :=
  if isPurchaseDisabled numDomainsRequired s then ButtonDisabled
  else handlePurchase s.

(** The cart can be purchased: the click reaches the purchase logic. *)
Definition purchaseReadiness (numDomainsRequired : Z) (s : State) : bool :=
  match clickPurchase numDomainsRequired s with
  | Proceeds => true
  | _ => false
  end.

(** ** The ranking as the specification words it

    Suffix priority: [.com] before [.app] before any other registered
    suffix; then name length.  Used only to compare with what
    [compareDomains] computes. *)

Definition specSuffixPriority (n : string) : Z :=
  if JS.endsWith n ".com" then 1
  else if JS.endsWith n ".app" then 2
  else 3.

Definition specKeyLe (a b : Domain) : bool :=
  let pa := specSuffixPriority (name a) in
  let pb := specSuffixPriority (name b) in
  (pa <? pb)
  || ((pa =? pb) && (String.length (name a) <=? String.length (name b))%nat).

Fixpoint specSorted (l : list Domain) : bool :=
  match l with
  | a :: (b :: _) as t => specKeyLe a b && specSorted t
  | _ => true
  end.

(** [l1] is [l2] with some elements deleted, the others in place. *)
Inductive Subsequence {A : Type} : list A -> list A -> Prop :=
| Subsequence_nil : Subsequence [] []
| Subsequence_keep x l1 l2 : Subsequence l1 l2 -> Subsequence (x :: l1) (x :: l2)
| Subsequence_drop x l1 l2 : Subsequence l1 l2 -> Subsequence l1 (x :: l2).

(** No occurrence of the character [c] in [s]. *)
Fixpoint lacksChar (c : ascii) (s : string) : bool :=
  match s with
  | EmptyString => true
  | String c' t => negb (Ascii.eqb c' c) && lacksChar c t
  end.

(** Length of an entry's name, the key [compareDomains] comes down to. *)
Definition nameLength (d : Domain) : Z := Z.of_nat (String.length (name d)).

(** ** The rest of the component: input, clipboard, cart rows *)

(** The [onChange] handler of the input field. *)
Definition handleChange (value : string) (s : State) : State :=
  setDomainInput value s.

(** The text handed to [useClipboard]:
    [domains.map(d => d.name).join(', ')]. *)
Definition clipboardText (s : State) : string :=
  JS.join ", " (map name (domains s)).

(** One [Box] of [DomainCart]: its React key, its text and the argument
    its Delete button passes to [onDeleteDomain]. *)
Record Row : Type := mkRow {
  rowKey : string;
  rowText : string;
  rowDelete : string
}.

(** [DomainCart]: one row per domain, in cart order. *)
Definition DomainCart (cart : list Domain) : list Row :=
  map (fun domain =>
         mkRow (name domain)
               (name domain ++ " ("
                ++ (if isAvailable domain then "Available" else "Unavailable")
                ++ ")")
               (name domain))
      cart.

(** A click on the Delete button of row [i], with [removeDomain] as
    [onDeleteDomain]; no such row, no click. *)
Definition clickDelete (i : nat) (s : State) : State :=
  match nth_error (DomainCart (domains s)) i with
  | Some row => removeDomain (rowDelete row) s
  | None => s
  end.

(** ** The component with its arrays in a store

    [keepBestDomains] sorts the array of the [domains] cell in place, and
    a suspended [addDomain] still holds a reference to the array that was
    in the cell when it was called.  To follow events that arrive while an
    add is suspended, arrays live in a store and the cell and the
    suspended adds hold references into it. *)

Definition Ref : Type := nat.
Definition Store : Type := list (list Domain).

Definition readArray (h : Store) (r : Ref) : list Domain := nth r h [].

Fixpoint writeArray (h : Store) (r : Ref) (a : list Domain) : Store :=
  match h, r with
  | [], _ => []
  | _ :: t, O => a :: t
  | x :: t, S r' => x :: writeArray t r' a
  end.

(** An [addDomain] suspended at its [await]: the values its continuation
    closes over. *)
Record Suspended : Type := mkSuspended {
  capturedDomain : string;
  capturedDomains : Ref
}.

Record Config : Type := mkConfig {
  store : Store;
  inputCell : string;
  domainsCell : Ref;
  errorCell : option string;
  suspended : list Suspended
}.

(** The component as first rendered. *)
Definition initialConfig : Config := mkConfig [[]] "" 0%nat None [].

(** The values a render sees. *)
Definition snapshot (c : Config) : State :=
  mkState (inputCell c) (readArray (store c) (domainsCell c)) (errorCell c).

(** [setDomains] with a newly built array. *)
Definition setDomainsFresh (a : list Domain) (c : Config) : Config :=
  mkConfig (store c ++ [a])%list (inputCell c) (List.length (store c))
           (errorCell c) (suspended c).

Definition removeNth {A : Type} (i : nat) (l : list A) : list A :=
  (firstn i l ++ skipn (S i) l)%list.

(** What can happen to the mounted component: the user's events, and the
    promise of the [i]-th suspended add resolving. *)
Inductive Event : Type :=
| Change (value : string)
| ClickAdd
| Resolve (i : nat) (isAvailable : bool)
| ClickDeleteName (domainToRemove : string)
| ClickClear
| ClickRemoveUnavailable
| ClickKeepBest.

Definition step (numDomainsRequired : Z) (ev : Event) (c : Config) : Config :=
  match ev with
  | Change value =>
      mkConfig (store c) value (domainsCell c) (errorCell c) (suspended c)
  | ClickAdd =>
      match addDomain (snapshot c) with
      | Returned s' _ =>
          mkConfig (store c) (inputCell c) (domainsCell c) (error s')
                   (suspended c)
      | Awaiting s' domain _ =>
          mkConfig (store c) (inputCell c) (domainsCell c) (error s')
                   (suspended c ++ [mkSuspended domain (domainsCell c)])%list
      end
  | Resolve i isAvailable =>
      match nth_error (suspended c) i with
      | None => c
      | Some p =>
          let captured := readArray (store c) (capturedDomains p) in
          let d := mkDomain (capturedDomain p) isAvailable in
          mkConfig (store c ++ [captured ++ [d]])%list "" (List.length (store c))
                   (errorCell c) (removeNth i (suspended c))
      end
  | ClickDeleteName domainToRemove =>
      setDomainsFresh (domains (removeDomain domainToRemove (snapshot c))) c
  | ClickClear => setDomainsFresh [] c
  | ClickRemoveUnavailable =>
      setDomainsFresh (domains (removeUnavailableDomains (snapshot c))) c
  | ClickKeepBest =>
      let sortedDomains :=
        JS.sort compareDomains (readArray (store c) (domainsCell c)) in
      setDomainsFresh
        (JS.slice0 sortedDomains numDomainsRequired)
        (mkConfig (writeArray (store c) (domainsCell c) sortedDomains)
                  (inputCell c) (domainsCell c) (errorCell c) (suspended c))
  end.

Definition run (numDomainsRequired : Z) (evs : list Event) (c : Config)
  : Config :=
  fold_left (fun c ev => step numDomainsRequired ev c) evs c.

(** ** Well-formed carts *)

(** A name as [addDomain] stores it: trimmed, lower-case, ending in a
    registered suffix, free of [https://]. *)
Definition isNormalizedName (n : string) : bool :=
  String.eqb (JS.trim n) n
  && String.eqb (JS.toLowerCase n) n
  && tldRegexTest n
  && negb (JS.includes n "https://").

Definition cartOk (cart : list Domain) : Prop :=
  NoDup (map name cart)
  /\ Forall (fun d => isNormalizedName (name d) = true) cart.

Definition suspendedOk (h : Store) (p : Suspended) : Prop :=
  isNormalizedName (capturedDomain p) = true
  /\ ~ In (capturedDomain p) (map name (readArray h (capturedDomains p)))
  /\ (capturedDomains p < List.length h)%nat.

Definition configOk (c : Config) : Prop :=
  Forall cartOk (store c)
  /\ Forall (suspendedOk (store c)) (suspended c)
  /\ (domainsCell c < List.length (store c))%nat.

(** Events that leave the first suspended add suspended and do not sort
    an array in place. *)
Definition sparesFirstSuspended (ev : Event) : bool :=
  match ev with
  | Resolve i _ => (1 <=? i)%nat
  | ClickKeepBest => false
  | _ => true
  end.

(** What an event that spares the first suspended add leaves in place: that
    add at the head of the list, and the array it captured. *)
Definition firstSuspendedIntact (p : Suspended) (captured : list Domain)
    (c : Config) : Prop :=
  (exists rest, suspended c = p :: rest)
  /\ readArray (store c) (capturedDomains p) = captured
  /\ (capturedDomains p < List.length (store c))%nat.

(** * Properties of the host functions *)

Example split_example : JS.split "." "a.b.com" = ["a"; "b"; "com"].
Proof. reflexivity. Qed.

Example trim_example : JS.trim "  Example.com  " = "Example.com".
Proof. reflexivity. Qed.

Example lower_example : JS.toLowerCase "Example.COM" = "example.com".
Proof. reflexivity. Qed.

Lemma lowerChar_idempotent (c : ascii) :
  JS.lowerChar (JS.lowerChar c) = JS.lowerChar c.
Proof.
  destruct c as [[] [] [] [] [] [] [] []]; vm_compute; reflexivity.
Qed.

Lemma toLowerCase_idempotent (s : string) :
  JS.toLowerCase (JS.toLowerCase s) = JS.toLowerCase s.
Proof.
  induction s as [|c t IH]; simpl; [reflexivity|].
  now rewrite lowerChar_idempotent, IH.
Qed.

Lemma isWhiteSpace_lowerChar (c : ascii) :
  JS.isWhiteSpace (JS.lowerChar c) = JS.isWhiteSpace c.
Proof.
  destruct c as [[] [] [] [] [] [] [] []]; vm_compute; reflexivity.
Qed.

Lemma trimStart_toLowerCase (s : string) :
  JS.trimStart (JS.toLowerCase s) = JS.toLowerCase (JS.trimStart s).
Proof.
  induction s as [|c t IH]; [reflexivity|].
  cbn [JS.toLowerCase JS.trimStart]. rewrite isWhiteSpace_lowerChar.
  destruct (JS.isWhiteSpace c); [exact IH | reflexivity].
Qed.

Lemma trimEnd_toLowerCase (s : string) :
  JS.trimEnd (JS.toLowerCase s) = JS.toLowerCase (JS.trimEnd s).
Proof.
  induction s as [|c t IH]; [reflexivity|].
  cbn [JS.toLowerCase JS.trimEnd]. rewrite IH, isWhiteSpace_lowerChar.
  destruct (JS.trimEnd t) as [|a r]; cbn [JS.toLowerCase].
  - now destruct (JS.isWhiteSpace c).
  - reflexivity.
Qed.

(** Lower-casing and trimming commute. *)
Lemma trim_toLowerCase (s : string) :
  JS.trim (JS.toLowerCase s) = JS.toLowerCase (JS.trim s).
Proof.
  unfold JS.trim. now rewrite trimStart_toLowerCase, trimEnd_toLowerCase.
Qed.

Lemma trimEnd_idempotent (s : string) : JS.trimEnd (JS.trimEnd s) = JS.trimEnd s.
Proof.
  induction s as [|c t IH]; [reflexivity|].
  cbn [JS.trimEnd].
  destruct (JS.trimEnd t) as [|a r] eqn:Ht.
  - destruct (JS.isWhiteSpace c) eqn:Hc; [reflexivity|].
    cbn [JS.trimEnd]. now rewrite Hc.
  - cbn [JS.trimEnd] in *. now rewrite IH.
Qed.

Lemma trimStart_trimEnd_trimStart (s : string) :
  JS.trimStart (JS.trimEnd (JS.trimStart s)) = JS.trimEnd (JS.trimStart s).
Proof.
  induction s as [|c t IH]; [reflexivity|].
  cbn [JS.trimStart]. destruct (JS.isWhiteSpace c) eqn:Hc; [exact IH|].
  cbn [JS.trimEnd].
  destruct (JS.trimEnd t); rewrite ?Hc; cbn [JS.trimStart]; now rewrite Hc.
Qed.

Lemma trim_idempotent (s : string) : JS.trim (JS.trim s) = JS.trim s.
Proof.
  unfold JS.trim. now rewrite trimStart_trimEnd_trimStart, trimEnd_idempotent.
Qed.

(** The normalization of [addDomain] is a normal form. *)
Lemma normalize_idempotent (s : string) :
  JS.toLowerCase (JS.trim (JS.toLowerCase (JS.trim s))) =
  JS.toLowerCase (JS.trim s).
Proof.
  now rewrite trim_toLowerCase, trim_idempotent, toLowerCase_idempotent.
Qed.

Lemma prefix_iff (p s : string) :
  String.prefix p s = true <-> exists q, s = p ++ q.
Proof.
  revert s; induction p as [|c p IH]; intros s; cbn [String.prefix append].
  - split; [intros _; now exists s | destruct s; reflexivity].
  - destruct s as [|c' s]; cbn [String.prefix].
    + split; [discriminate | intros [q Hq]; discriminate].
    + destruct (Ascii.ascii_dec c c') as [->|Hne].
      * rewrite IH. split; intros [q Hq]; exists q; [now rewrite Hq | now inversion Hq].
      * split; [discriminate | intros [q Hq]; inversion Hq; congruence].
Qed.

(** [includes] is substring occurrence. *)
Lemma includes_iff (s needle : string) :
  JS.includes s needle = true <-> exists p q, s = p ++ needle ++ q.
Proof.
  induction s as [|c t IH].
  - cbn [JS.includes]. rewrite orb_false_r, prefix_iff. split.
    + intros [q Hq]. now exists "", q.
    + intros [p [q Hpq]]. destruct p; [now exists q | discriminate].
  - cbn [JS.includes]. rewrite orb_true_iff, prefix_iff, IH. split.
    + intros [[q Hq] | [p [q Hpq]]].
      * now exists "", q.
      * exists (String c p), q. simpl. now rewrite Hpq.
    + intros [p [q Hpq]]. destruct p as [|c' p].
      * left. now exists q.
      * right. inversion Hpq. now exists p, q.
Qed.

(** [endsWith] is a literal match of the trailing characters. *)
Lemma endsWith_iff (s suffix : string) :
  JS.endsWith s suffix = true <-> exists p, s = p ++ suffix.
Proof.
  induction s as [|c t IH].
  - cbn [JS.endsWith]. rewrite orb_false_r, String.eqb_eq. split.
    + intros <-. now exists "".
    + intros [p Hp]. destruct p; [exact Hp | discriminate].
  - cbn [JS.endsWith]. rewrite orb_true_iff, String.eqb_eq, IH. split.
    + intros [<- | [p Hp]]; [now exists "" | exists (String c p); simpl; now rewrite Hp].
    + intros [p Hp]. destruct p as [|c' p].
      * now left.
      * right. inversion Hp. now exists p.
Qed.

(** The regular expression accepts exactly the strings ending in one of
    the three registered suffixes. *)
Lemma tldRegexTest_iff (s : string) :
  tldRegexTest s = true <->
  exists p suffix, In suffix [".com"; ".xyz"; ".app"] /\ s = p ++ suffix.
Proof.
  unfold tldRegexTest. rewrite !orb_true_iff, !endsWith_iff. split.
  - intros [[[p Hp] | [p Hp]] | [p Hp]]; exists p; eexists; (split; [|exact Hp]); simpl; auto.
  - intros [p [suffix [Hin Hp]]]. simpl in Hin.
    destruct Hin as [<- | [<- | [<- | []]]]; eauto.
Qed.

(** Every piece produced by [split] is free of the separator. *)
Lemma split_lacksChar (sep : ascii) (s : string) :
  Forall (fun piece => lacksChar sep piece = true) (JS.split sep s).
Proof.
  induction s as [|c t IH]; cbn [JS.split].
  - repeat constructor.
  - destruct (Ascii.eqb c sep) eqn:Hc.
    + constructor; [reflexivity | exact IH].
    + destruct (JS.split sep t) as [|piece rest].
      * constructor; [simpl; now rewrite Hc | constructor].
      * inversion IH as [|? ? Hpiece Hrest]; subst.
        constructor; [simpl; now rewrite Hc, Hpiece | exact Hrest].
Qed.

Lemma pop_Forall {A : Type} (P : A -> Prop) (l : list A) :
  Forall P l -> forall x, JS.pop l = Some x -> P x.
Proof.
  induction 1 as [|y t Hy Ht IH]; intros x Hx; [discriminate|].
  destruct t as [|z t'].
  - now inversion Hx; subst.
  - apply IH. exact Hx.
Qed.

(** What [name.split('.').pop() || ''] yields never contains a dot. *)
Lemma lastLabel_lacks_dot (n : string) : lacksChar "." (lastLabel n) = true.
Proof.
  unfold lastLabel.
  destruct (JS.pop (JS.split "." n)) as [x|] eqn:Hpop; [|reflexivity].
  exact (pop_Forall _ _ (split_lacksChar "." n) x Hpop).
Qed.

(** So [tldPriority] never sees [".com"] or [".app"]: on the labels the
    comparator feeds it, it is constantly 3. *)
Lemma tldPriority_lastLabel (n : string) : tldPriority (lastLabel n) = 3.
Proof.
  pose proof (lastLabel_lacks_dot n) as H.
  unfold tldPriority.
  destruct (String.eqb_spec (lastLabel n) ".com") as [E|_];
    [rewrite E in H; discriminate|].
  destruct (String.eqb_spec (lastLabel n) ".app") as [E|_];
    [rewrite E in H; discriminate|].
  reflexivity.
Qed.

(** The comparator of [keepBestDomains] is the difference of the name
    lengths. *)
Lemma compareDomains_length (a b : Domain) :
  compareDomains a b =
  Z.of_nat (String.length (name a)) - Z.of_nat (String.length (name b)).
Proof.
  unfold compareDomains. now rewrite !tldPriority_lastLabel.
Qed.

(** ** Sorting with a comparator that is a difference of keys *)

Section SortByKey.
Context {A : Type} (compareFn : A -> A -> Z) (key : A -> Z).
Hypothesis compareFn_key : forall a b, compareFn a b = key a - key b.

Let keyLe := fun a b : A => key a <= key b.

Lemma insert_Permutation (x : A) (l : list A) :
  Permutation (x :: l) (JS.insert compareFn x l).
Proof.
  induction l as [|y t IH]; simpl; [reflexivity|].
  destruct (compareFn x y >? 0); [|reflexivity].
  rewrite perm_swap. now constructor.
Qed.

Lemma sort_Permutation (l : list A) : Permutation l (JS.sort compareFn l).
Proof.
  induction l as [|x t IH]; simpl; [constructor|].
  rewrite <- insert_Permutation. now constructor.
Qed.

Lemma sort_length (l : list A) :
  List.length (JS.sort compareFn l) = List.length l.
Proof. symmetry. apply Permutation_length, sort_Permutation. Qed.

Lemma insert_StronglySorted (x : A) (l : list A) :
  StronglySorted keyLe l -> StronglySorted keyLe (JS.insert compareFn x l).
Proof.
  induction 1 as [|y t Ht IH Hy]; simpl.
  - repeat constructor.
  - rewrite compareFn_key.
    destruct (Z.gtb_spec (key x - key y) 0) as [Hgt|Hle].
    + constructor; [exact IH|].
      apply (Permutation_Forall (insert_Permutation x t)).
      constructor; [unfold keyLe; lia | exact Hy].
    + constructor; [now constructor|].
      constructor; [unfold keyLe; lia|].
      eapply Forall_impl; [|exact Hy].
      unfold keyLe; intros; lia.
Qed.

(** The result of [sort] ascends in the key. *)
Lemma sort_StronglySorted (l : list A) :
  StronglySorted keyLe (JS.sort compareFn l).
Proof.
  induction l as [|x t IH]; simpl; [constructor|].
  now apply insert_StronglySorted.
Qed.

Lemma insert_filter_key (k : Z) (x : A) (l : list A) :
  List.filter (fun a => key a =? k) (JS.insert compareFn x l) =
  List.filter (fun a => key a =? k) (x :: l).
Proof.
  induction l as [|y t IH]; [reflexivity|].
  cbn [JS.insert]. rewrite compareFn_key.
  destruct (Z.gtb_spec (key x - key y) 0) as [Hgt|Hle]; [|reflexivity].
  cbn [List.filter] in *. rewrite IH.
  destruct (Z.eqb_spec (key x) k), (Z.eqb_spec (key y) k); try reflexivity.
  lia.
Qed.

(** [sort] is stable: the elements of any one key keep their order. *)
Lemma sort_stable (k : Z) (l : list A) :
  List.filter (fun a => key a =? k) (JS.sort compareFn l) =
  List.filter (fun a => key a =? k) l.
Proof.
  induction l as [|x t IH]; [reflexivity|].
  cbn [JS.sort]. rewrite insert_filter_key. cbn [List.filter].
  now rewrite IH.
Qed.

End SortByKey.

Lemma StronglySorted_firstn {A : Type} (R : A -> A -> Prop) (n : nat) (l : list A) :
  StronglySorted R l -> StronglySorted R (firstn n l).
Proof.
  intros H; revert n; induction H as [|x t Ht IH Hx]; intros [|n]; simpl;
    try constructor.
  - apply IH.
  - rewrite Forall_forall in *. intros y Hy. apply Hx.
    rewrite <- (firstn_skipn n t). apply in_or_app. now left.
Qed.

Lemma slice0_length {A : Type} (l : list A) (n : Z) :
  0 <= n ->
  List.length (JS.slice0 l n) = Nat.min (Z.to_nat n) (List.length l).
Proof.
  intros Hn. unfold JS.slice0.
  destruct (Z.ltb_spec n 0) as [Hlt|_]; [lia|].
  rewrite length_firstn. lia.
Qed.

(** ** What [keepBestDomains] does for every cart *)

(** For a non-negative count the cart is cut to at most that many
    entries. *)
Lemma keepBestDomains_length (n : Z) (s : State) :
  0 <= n ->
  List.length (domains (keepBestDomains n s)) =
  Nat.min (Z.to_nat n) (List.length (domains s)).
Proof.
  intros Hn. unfold keepBestDomains. cbn [domains setDomains].
  rewrite slice0_length by exact Hn.
  now rewrite (sort_length compareDomains).
Qed.

(** The kept entries ascend in name length, whatever their suffixes. *)
Lemma keepBestDomains_sorted_by_length (n : Z) (s : State) :
  StronglySorted (fun a b => nameLength a <= nameLength b)
                 (domains (keepBestDomains n s)).
Proof.
  unfold keepBestDomains, JS.slice0. cbn [domains setDomains].
  apply StronglySorted_firstn.
  apply (sort_StronglySorted compareDomains nameLength compareDomains_length).
Qed.

(** Before the cut, names of equal length keep their cart order. *)
Lemma keepBestDomains_sort_stable (k : Z) (l : list Domain) :
  List.filter (fun d => nameLength d =? k) (JS.sort compareDomains l) =
  List.filter (fun d => nameLength d =? k) l.
Proof.
  apply (sort_stable compareDomains nameLength compareDomains_length).
Qed.

(** * The cart operations *)

Lemma some_unavailable_false (l : list Domain) :
  JS.some (fun domain => negb (isAvailable domain)) l = false <->
  Forall (fun d => isAvailable d = true) l.
Proof.
  unfold JS.some. induction l as [|d t IH]; simpl.
  - split; [constructor | reflexivity].
  - rewrite orb_false_iff, negb_false_iff, IH. split.
    + intros [Hd Ht]. now constructor.
    + intros H. now inversion H.
Qed.

Lemma some_name_true (n : string) (l : list Domain) :
  JS.some (fun d => String.eqb (name d) n) l = true <->
  exists d, In d l /\ name d = n.
Proof.
  unfold JS.some. rewrite existsb_exists.
  split; intros [d [Hin Hd]]; exists d; (split; [exact Hin|]);
    now apply String.eqb_eq.
Qed.

Lemma filter_Subsequence {A : Type} (p : A -> bool) (l : list A) :
  Subsequence (JS.filter p l) l.
Proof.
  unfold JS.filter. induction l as [|x t IH]; simpl; [constructor|].
  destruct (p x); now constructor.
Qed.

(** C3.  A purchase attempt reaches the purchase logic if and only if the
    cart holds exactly [numDomainsRequired] entries and every entry is
    available: the button is enabled on the count, and the click handler
    stops on an unavailable entry. *)
Theorem purchaseReadiness_iff (numDomainsRequired : Z) (s : State) :
  purchaseReadiness numDomainsRequired s = true <->
  Z.of_nat (List.length (domains s)) = numDomainsRequired
  /\ Forall (fun d => isAvailable d = true) (domains s).
Proof.
  unfold purchaseReadiness, clickPurchase, isPurchaseDisabled, handlePurchase.
  destruct (Z.eqb_spec (Z.of_nat (List.length (domains s))) numDomainsRequired)
    as [Hlen|Hlen]; cbn [negb].
  - rewrite <- some_unavailable_false.
    destruct (JS.some _ (domains s)); split; try tauto; try discriminate.
    intros [_ H]; discriminate.
  - split; [discriminate | tauto].
Qed.

Lemma purchaseReadiness_iff_witness :
  purchaseReadiness 2
    (mkState "" [mkDomain "a.com" true; mkDomain "c.app" true] None) = true.
Proof.
  apply (proj2 (purchaseReadiness_iff 2
    (mkState "" [mkDomain "a.com" true; mkDomain "c.app" true] None))).
  split; [reflexivity | repeat constructor].
Defined.

(** C4.  When the trimmed, lower-cased input contains [https://] or does
    not end in [.com], [.xyz] or [.app], [addDomain] returns on the
    invalid-format path without awaiting, the error cell holds the
    invalid-format message and the cart is the one it was. *)
Theorem addDomain_rejects_invalid_format
    (isDomainAvailable : string -> bool) (s : State) :
  let domain := JS.toLowerCase (JS.trim (domainInput s)) in
  let s' := setError (Some invalidFormatMessage) s in
  (exists p q, domain = p ++ "https://" ++ q)
  \/ ~ (exists p suffix, In suffix [".com"; ".xyz"; ".app"] /\ domain = p ++ suffix) ->
  addDomain s = Returned s' RejectedInvalidFormat
  /\ addDomainWith isDomainAvailable s = (s', RejectedInvalidFormat, [])
  /\ error s' = Some invalidFormatMessage
  /\ domains s' = domains s.
Proof.
  cbn zeta. intros H.
  assert (Hv : tldRegexTest (JS.toLowerCase (JS.trim (domainInput s)))
               && negb (JS.includes (JS.toLowerCase (JS.trim (domainInput s)))
                                    "https://") = false).
  { destruct H as [H|H].
    - apply includes_iff in H. rewrite H. apply andb_false_r.
    - rewrite <- tldRegexTest_iff in H.
      apply not_true_is_false in H. now rewrite H. }
  assert (Hadd : addDomain s =
                 Returned (setError (Some invalidFormatMessage) s)
                          RejectedInvalidFormat).
  { unfold addDomain, validateDomain.
    rewrite toLowerCase_idempotent, Hv. reflexivity. }
  unfold addDomainWith. rewrite Hadd. repeat split.
Qed.

Lemma addDomain_rejects_invalid_format_witness :
  addDomain (mkState " Example.ORG " [mkDomain "a.com" true] None) =
    Returned (mkState " Example.ORG " [mkDomain "a.com" true]
                      (Some invalidFormatMessage))
             RejectedInvalidFormat.
Proof.
  apply (addDomain_rejects_invalid_format (fun _ => true)
           (mkState " Example.ORG " [mkDomain "a.com" true] None)).
  right. intros H. apply tldRegexTest_iff in H. discriminate H.
Defined.

(** C5.  When the input is valid and its trimmed, lower-cased form is the
    name of a cart entry, [addDomain] returns on the duplicate path: the
    availability oracle is not asked, the error cell holds the duplicate
    message and the cart is the one it was.  The input's own letter case
    plays no part: only its normalized form is compared. *)
Theorem addDomain_rejects_duplicate
    (isDomainAvailable : string -> bool) (s : State) :
  let domain := JS.toLowerCase (JS.trim (domainInput s)) in
  let s' := setError (Some duplicateMessage) s in
  (exists p suffix, In suffix [".com"; ".xyz"; ".app"] /\ domain = p ++ suffix) ->
  ~ (exists p q, domain = p ++ "https://" ++ q) ->
  (exists d, In d (domains s) /\ name d = domain) ->
  addDomain s = Returned s' RejectedDuplicate
  /\ addDomainWith isDomainAvailable s = (s', RejectedDuplicate, [])
  /\ error s' = Some duplicateMessage
  /\ domains s' = domains s.
Proof.
  cbn zeta. intros Hsuffix Hproto Hdup.
  apply tldRegexTest_iff in Hsuffix.
  rewrite <- includes_iff in Hproto. apply not_true_is_false in Hproto.
  apply some_name_true in Hdup.
  assert (Hadd : addDomain s =
                 Returned (setError (Some duplicateMessage) s) RejectedDuplicate).
  { unfold addDomain, validateDomain.
    rewrite toLowerCase_idempotent, Hsuffix, Hproto. cbn.
    rewrite Hdup. reflexivity. }
  unfold addDomainWith. rewrite Hadd. repeat split.
Qed.

Lemma addDomain_rejects_duplicate_witness :
  addDomainWith (fun _ => true)
    (mkState "  A.Com" [mkDomain "b.xyz" false; mkDomain "a.com" true] None) =
  (mkState "  A.Com" [mkDomain "b.xyz" false; mkDomain "a.com" true]
           (Some duplicateMessage),
   RejectedDuplicate, []).
Proof.
  apply (addDomain_rejects_duplicate (fun _ => true)
    (mkState "  A.Com" [mkDomain "b.xyz" false; mkDomain "a.com" true] None)).
  - exists "a", ".com". split; [simpl; auto | reflexivity].
  - intros H. apply includes_iff in H. discriminate H.
  - exists (mkDomain "a.com" true). split; [simpl; auto | reflexivity].
Defined.

(** C6.  From an empty cart, adding the input [Example.com] while the
    oracle answers [true] ends with the cart
    [[{name: "example.com", isAvailable: true}]], no error and an empty
    input field. *)
Theorem addDomain_example_com
    (isDomainAvailable : string -> bool) (e : option string) :
  isDomainAvailable "example.com" = true ->
  addDomainWith isDomainAvailable (mkState "Example.com" [] e) =
  (mkState "" [mkDomain "example.com" true] None,
   Added (mkDomain "example.com" true),
   ["example.com"]).
Proof.
  intros H. unfold addDomainWith. cbn. now rewrite H.
Qed.

Lemma addDomain_example_com_witness :
  addDomainWith (fun _ => true)
    (mkState "Example.com" [] (Some invalidFormatMessage)) =
  (mkState "" [mkDomain "example.com" true] None,
   Added (mkDomain "example.com" true),
   ["example.com"]).
Proof.
  apply (addDomain_example_com (fun _ => true) (Some invalidFormatMessage)).
  reflexivity.
Defined.

(** C7.  [removeUnavailableDomains] leaves a cart that is no longer than
    before, holds no unavailable entry, and consists of the available
    entries of the old cart, all of them, in the order they had. *)
Theorem removeUnavailableDomains_prunes (s : State) :
  let cart' := domains (removeUnavailableDomains s) in
  (List.length cart' <= List.length (domains s))%nat
  /\ Forall (fun d => isAvailable d = true) cart'
  /\ Subsequence cart' (domains s)
  /\ (forall d, In d (domains s) -> isAvailable d = true -> In d cart').
Proof.
  cbn zeta. unfold removeUnavailableDomains. cbn [domains setDomains].
  repeat split.
  - apply filter_length_le.
  - apply Forall_forall. intros d Hd. now apply filter_In in Hd.
  - apply filter_Subsequence.
  - intros d Hin Hd. apply filter_In. now split.
Qed.

Lemma removeUnavailableDomains_prunes_witness :
  In (mkDomain "c.app" true)
     (domains (removeUnavailableDomains
        (mkState "" [mkDomain "a.com" true; mkDomain "b.xyz" false;
                     mkDomain "c.app" true] None))).
Proof.
  apply (removeUnavailableDomains_prunes
    (mkState "" [mkDomain "a.com" true; mkDomain "b.xyz" false;
                 mkDomain "c.app" true] None)).
  - simpl; auto.
  - reflexivity.
Defined.

(** C8.  [removeDomain] is idempotent: removing a name that no cart entry
    has leaves the state as it is, and removing a name a second time
    changes nothing more. *)
Theorem removeDomain_idempotent (domainToRemove : string) (s : State) :
  ((forall d, In d (domains s) -> name d <> domainToRemove) ->
   removeDomain domainToRemove s = s)
  /\ removeDomain domainToRemove (removeDomain domainToRemove s) =
     removeDomain domainToRemove s.
Proof.
  unfold removeDomain, JS.filter. split.
  - intros Habsent. destruct s as [input cart err]. unfold setDomains.
    cbn [domains domainInput error] in *. f_equal.
    induction cart as [|d t IH]; [reflexivity|].
    cbn [List.filter].
    destruct (String.eqb_spec (name d) domainToRemove) as [E|_].
    + exfalso. apply (Habsent d); [now left | exact E].
    + cbn [negb]. f_equal. apply IH. intros d' Hd'. apply Habsent. now right.
  - cbn [domains setDomains domainInput error].
    unfold setDomains. cbn [domains domainInput error]. f_equal.
    induction (domains s) as [|d t IH]; [reflexivity|].
    cbn [List.filter].
    destruct (negb (String.eqb (name d) domainToRemove)) eqn:Hd.
    + cbn [List.filter]. rewrite Hd. now f_equal.
    + exact IH.
Qed.

Lemma removeDomain_idempotent_witness :
  removeDomain "b.xyz" (mkState "x" [mkDomain "a.com" true] None) =
  mkState "x" [mkDomain "a.com" true] None.
Proof.
  apply (proj1 (removeDomain_idempotent "b.xyz"
                  (mkState "x" [mkDomain "a.com" true] None))).
  intros d [<- | []]. discriminate.
Defined.

(** C9.  After [clearCart] the cart is empty, whatever it held. *)
Theorem clearCart_empty (s : State) : domains (clearCart s) = [].
Proof. reflexivity. Qed.

(** C10.  [removeDomain], [clearCart], [removeUnavailableDomains] and
    [keepBestDomains] write the domain list only: the error and the input
    text are the ones of the state they started from. *)
Theorem cart_operations_frame
    (domainToRemove : string) (numDomainsRequired : Z) (s : State) :
  (error (removeDomain domainToRemove s) = error s
   /\ domainInput (removeDomain domainToRemove s) = domainInput s)
  /\ (error (clearCart s) = error s
      /\ domainInput (clearCart s) = domainInput s)
  /\ (error (removeUnavailableDomains s) = error s
      /\ domainInput (removeUnavailableDomains s) = domainInput s)
  /\ (error (keepBestDomains numDomainsRequired s) = error s
      /\ domainInput (keepBestDomains numDomainsRequired s) = domainInput s).
Proof. repeat split. Qed.

(** * The ranking of [keepBestDomains] against the specification *)

(** C1.  [keepBestDomains] does not rank by suffix.  On the cart
    [[a.app; b.com]] with a required count of 2 it keeps the cart as it
    is, [a.app] ahead of [b.com], which is not ascending in (suffix
    priority, name length): the labels handed to [tldPriority] carry no
    dot, so every entry gets priority 3 and only the name length orders
    the cart. *)
Theorem keepBestDomains_ignores_suffix :
  let s := mkState "" [mkDomain "a.app" true; mkDomain "b.com" true] None in
  domains (keepBestDomains 2 s) = [mkDomain "a.app" true; mkDomain "b.com" true]
  /\ specSorted (domains (keepBestDomains 2 s)) = false
  /\ specSorted [mkDomain "b.com" true; mkDomain "a.app" true] = true.
Proof. repeat split. Qed.

(** C2.  On the cart [[a.com; b.xyz; c.app]] with a required count of 2,
    [keepBestDomains] leaves [[a.com; b.xyz]]: the three names are equally
    long and get the same priority, so the order stays and [c.app] is cut,
    where the specification expects [[a.com; c.app]]. *)
Theorem keepBestDomains_scenario :
  let s := mkState "" [mkDomain "a.com" true; mkDomain "b.xyz" false;
                       mkDomain "c.app" true] None in
  domains (keepBestDomains 2 s) = [mkDomain "a.com" true; mkDomain "b.xyz" false]
  /\ domains (keepBestDomains 2 s) <> [mkDomain "a.com" true; mkDomain "c.app" true].
Proof. split; [reflexivity | discriminate]. Qed.

(** * Further properties of the handlers *)

(** [addDomain] on an input that passes both tests: it suspends on the
    oracle, with the error already cleared. *)
Lemma addDomain_awaits (s : State) :
  let domain := JS.toLowerCase (JS.trim (domainInput s)) in
  tldRegexTest domain = true ->
  JS.includes domain "https://" = false ->
  JS.some (fun d => String.eqb (name d) domain) (domains s) = false ->
  addDomain s =
  Awaiting (setError None s) domain (fun isAvailable cur =>
    let d := mkDomain domain isAvailable in
    (setDomainInput "" (setDomains (domains s ++ [d]) cur), Added d)).
Proof.
  cbn zeta. intros Hsuffix Hproto Hdup.
  unfold addDomain, validateDomain.
  rewrite toLowerCase_idempotent, Hsuffix, Hproto. cbn.
  now rewrite Hdup.
Qed.

(** What a suspended [addDomain] has established about its name. *)
Lemma addDomain_Awaiting_inv (s s' : State) (n : string)
    (k : bool -> State -> State * AddOutcome) :
  addDomain s = Awaiting s' n k ->
  isNormalizedName n = true
  /\ ~ In n (map name (domains s))
  /\ s' = setError None s.
Proof.
  unfold addDomain, validateDomain.
  rewrite toLowerCase_idempotent.
  set (domain := JS.toLowerCase (JS.trim (domainInput s))).
  destruct (tldRegexTest domain) eqn:Hsuffix; [|discriminate].
  destruct (JS.includes domain "https://") eqn:Hproto; [discriminate|].
  cbn.
  destruct (JS.some _ (domains s)) eqn:Hdup; [discriminate|].
  intros H. inversion H; subst. repeat split.
  - unfold isNormalizedName. fold domain.
    rewrite Hsuffix, Hproto. unfold domain.
    rewrite trim_toLowerCase, trim_idempotent, toLowerCase_idempotent,
      !String.eqb_refl.
    reflexivity.
  - intros Hin. apply in_map_iff in Hin. destruct Hin as [d [Hd Hin]].
    assert (Htrue : JS.some (fun d => String.eqb (name d) domain) (domains s) = true)
      by (apply some_name_true; now exists d).
    congruence.
Qed.

(** X1.  [validateDomain] looks at the lower-cased argument only: it
    accepts exactly when that ends in [.com], [.xyz] or [.app] and holds no
    [https://]; it then clears the error, and otherwise sets the
    invalid-format message.  The cart and the input are not written. *)
Theorem validateDomain_verdict (domain : string) (s : State) :
  let lower := JS.toLowerCase domain in
  let accepted :=
    (exists p suffix, In suffix [".com"; ".xyz"; ".app"] /\ lower = p ++ suffix)
    /\ ~ (exists p q, lower = p ++ "https://" ++ q) in
  (accepted -> validateDomain domain s = (true, setError None s))
  /\ (~ accepted ->
      validateDomain domain s = (false, setError (Some invalidFormatMessage) s)).
Proof.
  cbn zeta. rewrite <- tldRegexTest_iff, <- includes_iff.
  unfold validateDomain.
  destruct (tldRegexTest (JS.toLowerCase domain));
    destruct (JS.includes (JS.toLowerCase domain) "https://"); cbn; split;
    try reflexivity; intros H; try reflexivity.
  - destruct H as [_ H]. now elim H.
  - elim H. split; [reflexivity | discriminate].
  - destruct H as [H _]. discriminate.
  - destruct H as [H _]. discriminate.
Qed.

Lemma validateDomain_verdict_witness :
  validateDomain "Shop.APP" (mkState "x" [] (Some duplicateMessage)) =
  (true, mkState "x" [] None).
Proof.
  apply (proj1 (validateDomain_verdict "Shop.APP"
                  (mkState "x" [] (Some duplicateMessage)))).
  split.
  - exists "shop", ".app". split; [simpl; auto | reflexivity].
  - intros H. apply includes_iff in H. discriminate H.
Defined.

(** X2.  A valid input whose normalized name no cart entry has is
    appended: the oracle is asked once, about the normalized name, the new
    entry goes to the end of the cart with the oracle's answer, the error
    is cleared and the input field emptied. *)
Theorem addDomain_appends (isDomainAvailable : string -> bool) (s : State) :
  let domain := JS.toLowerCase (JS.trim (domainInput s)) in
  let d := mkDomain domain (isDomainAvailable domain) in
  (exists p suffix, In suffix [".com"; ".xyz"; ".app"] /\ domain = p ++ suffix) ->
  ~ (exists p q, domain = p ++ "https://" ++ q) ->
  (forall e, In e (domains s) -> name e <> domain) ->
  addDomainWith isDomainAvailable s =
  (mkState "" (domains s ++ [d]) None, Added d, [domain]).
Proof.
  cbn zeta. intros Hsuffix Hproto Hfresh.
  apply tldRegexTest_iff in Hsuffix.
  rewrite <- includes_iff in Hproto. apply not_true_is_false in Hproto.
  assert (Hdup : JS.some (fun e => String.eqb (name e)
                   (JS.toLowerCase (JS.trim (domainInput s)))) (domains s) = false).
  { apply not_true_is_false. intros H. apply some_name_true in H.
    destruct H as [e [Hin He]]. exact (Hfresh e Hin He). }
  unfold addDomainWith.
  rewrite (addDomain_awaits s Hsuffix Hproto Hdup). reflexivity.
Qed.

Lemma addDomain_appends_witness :
  addDomainWith (fun _ => false)
    (mkState " Shop.XYZ" [mkDomain "a.com" true] (Some duplicateMessage)) =
  (mkState "" [mkDomain "a.com" true; mkDomain "shop.xyz" false] None,
   Added (mkDomain "shop.xyz" false), ["shop.xyz"]).
Proof.
  apply (addDomain_appends (fun _ => false)
    (mkState " Shop.XYZ" [mkDomain "a.com" true] (Some duplicateMessage))).
  - exists "shop", ".xyz". split; [simpl; auto | reflexivity].
  - intros H. apply includes_iff in H. discriminate H.
  - intros e [<- | []]. discriminate.
Defined.


Lemma append_empty_r (s : string) : s ++ "" = s.
Proof. induction s as [|c t IH]; simpl; [reflexivity | now rewrite IH]. Qed.

Lemma append_assoc (a b c : string) : (a ++ b) ++ c = a ++ b ++ c.
Proof. induction a as [|x t IH]; simpl; [reflexivity | now rewrite IH]. Qed.

Lemma join_includes (sep x : string) (l : list string) :
  In x l -> JS.includes (JS.join sep l) x = true.
Proof.
  intros Hin. apply includes_iff.
  induction l as [|y t IH]; [contradiction|].
  destruct t as [|z t'].
  - destruct Hin as [<- | []]. exists "", "". simpl. now rewrite append_empty_r.
  - change (JS.join sep (y :: z :: t')) with (y ++ sep ++ JS.join sep (z :: t')).
    destruct Hin as [<- | Hin].
    + now exists "", (sep ++ JS.join sep (z :: t')).
    + destruct (IH Hin) as [p [q Hpq]]. rewrite Hpq.
      exists (y ++ sep ++ p), q. now rewrite !append_assoc.
Qed.

(** X4.  The text offered to the clipboard holds the name of every cart
    entry, and is empty for an empty cart. *)
Theorem clipboardText_includes_names (s : State) :
  (forall d, In d (domains s) -> JS.includes (clipboardText s) (name d) = true)
  /\ (domains s = [] -> clipboardText s = "").
Proof.
  unfold clipboardText. split.
  - intros d Hd. apply join_includes. now apply in_map.
  - intros ->. reflexivity.
Qed.

Lemma clipboardText_includes_names_witness :
  JS.includes
    (clipboardText (mkState "" [mkDomain "a.com" true; mkDomain "b.xyz" false] None))
    "b.xyz" = true.
Proof.
  apply (proj1 (clipboardText_includes_names
    (mkState "" [mkDomain "a.com" true; mkDomain "b.xyz" false] None))
    (mkDomain "b.xyz" false)).
  simpl; auto.
Defined.

Lemma filter_other_names_id (n : string) (l : list Domain) :
  ~ In n (map name l) ->
  List.filter (fun d => negb (String.eqb (name d) n)) l = l.
Proof.
  induction l as [|x t IH]; intros Hn; [reflexivity|].
  cbn [List.filter]. simpl in Hn.
  destruct (String.eqb_spec (name x) n) as [E|_]; [tauto|].
  cbn [negb]. f_equal. apply IH. tauto.
Qed.

Lemma filter_unique_name (i : nat) (d : Domain) (l : list Domain) :
  NoDup (map name l) ->
  nth_error l i = Some d ->
  List.filter (fun e => negb (String.eqb (name e) (name d))) l = removeNth i l.
Proof.
  unfold removeNth. revert i; induction l as [|x t IH]; intros i Hnd Hi.
  - destruct i; discriminate.
  - simpl in Hnd. apply NoDup_cons_iff in Hnd. destruct Hnd as [Hx Hnd].
    destruct i as [|i]; cbn [nth_error] in Hi.
    + inversion Hi; subst x. cbn [List.filter firstn skipn app].
      rewrite String.eqb_refl. cbn [negb].
      now apply filter_other_names_id.
    + cbn [List.filter firstn skipn app].
      destruct (String.eqb_spec (name x) (name d)) as [E|_].
      * exfalso. apply Hx. rewrite E. apply in_map. eapply nth_error_In; eauto.
      * cbn [negb]. f_equal. now apply IH.
Qed.

(** X5.  In a cart without repeated names, the Delete button of the
    [i]-th row of [DomainCart] removes that entry and no other: the cart
    is the old one with position [i] taken out.  (With a repeated name
    every entry of that name would go.) *)
Theorem clickDelete_removes_row (i : nat) (s : State) :
  NoDup (map name (domains s)) ->
  (i < List.length (domains s))%nat ->
  domains (clickDelete i s) = removeNth i (domains s)
  /\ S (List.length (domains (clickDelete i s))) = List.length (domains s).
Proof.
  intros Hnd Hi. unfold clickDelete, DomainCart.
  rewrite nth_error_map.
  destruct (nth_error (domains s) i) as [d|] eqn:Hd.
  - cbn [option_map rowDelete]. unfold removeDomain, JS.filter.
    cbn [domains setDomains].
    rewrite (filter_unique_name i d _ Hnd Hd). split; [reflexivity|].
    unfold removeNth. rewrite length_app, length_firstn, length_skipn. lia.
  - apply nth_error_None in Hd. lia.
Qed.

Lemma clickDelete_removes_row_witness :
  domains (clickDelete 1
    (mkState "" [mkDomain "a.com" true; mkDomain "b.xyz" false;
                 mkDomain "c.app" true] None)) =
  [mkDomain "a.com" true; mkDomain "c.app" true].
Proof.
  apply (clickDelete_removes_row 1
    (mkState "" [mkDomain "a.com" true; mkDomain "b.xyz" false;
                 mkDomain "c.app" true] None)).
  - simpl. repeat constructor; simpl; intuition discriminate.
  - simpl. lia.
Defined.

Lemma filter_idempotent {A : Type} (p : A -> bool) (l : list A) :
  List.filter p (List.filter p l) = List.filter p l.
Proof.
  induction l as [|x t IH]; [reflexivity|].
  cbn [List.filter]. destruct (p x) eqn:Hx; [|exact IH].
  cbn [List.filter]. rewrite Hx. now f_equal.
Qed.

(** X6.  After [removeUnavailableDomains] the purchase handler never
    alerts; the cart is then purchasable exactly when the number of
    available entries of the old cart is the required count.  Pruning a
    second time changes nothing. *)
Theorem removeUnavailableDomains_then_purchase
    (numDomainsRequired : Z) (s : State) :
  handlePurchase (removeUnavailableDomains s) = Proceeds
  /\ purchaseReadiness numDomainsRequired (removeUnavailableDomains s) =
     (Z.of_nat (List.length (List.filter isAvailable (domains s)))
      =? numDomainsRequired)
  /\ removeUnavailableDomains (removeUnavailableDomains s) =
     removeUnavailableDomains s.
Proof.
  assert (Hp : handlePurchase (removeUnavailableDomains s) = Proceeds).
  { unfold handlePurchase.
    replace (JS.some _ (domains (removeUnavailableDomains s))) with false;
      [reflexivity|].
    symmetry. apply some_unavailable_false.
    unfold removeUnavailableDomains, JS.filter. cbn [domains setDomains].
    apply Forall_forall. intros d Hd. now apply filter_In in Hd. }
  split; [exact Hp|]. split.
  - unfold purchaseReadiness, clickPurchase. rewrite Hp.
    unfold isPurchaseDisabled, removeUnavailableDomains, JS.filter.
    cbn [domains setDomains].
    now destruct (_ =? numDomainsRequired).
  - unfold removeUnavailableDomains, JS.filter, setDomains.
    cbn [domains domainInput error]. now rewrite filter_idempotent.
Qed.

(** ** More on [keepBestDomains] *)

Lemma sort_sorted_id {A : Type} (compareFn : A -> A -> Z) (key : A -> Z)
    (l : list A) :
  (forall a b, compareFn a b = key a - key b) ->
  StronglySorted (fun a b => key a <= key b) l ->
  JS.sort compareFn l = l.
Proof.
  intros Hcmp. induction 1 as [|x t Ht IH Hx]; [reflexivity|].
  cbn [JS.sort]. rewrite IH.
  destruct t as [|y t']; [reflexivity|].
  cbn [JS.insert]. rewrite Hcmp.
  inversion Hx; subst.
  destruct (Z.gtb_spec (key x - key y) 0); [lia | reflexivity].
Qed.

Lemma slice0_idempotent {A : Type} (l : list A) (n : Z) :
  0 <= n -> JS.slice0 (JS.slice0 l n) n = JS.slice0 l n.
Proof.
  intros Hn. unfold JS.slice0.
  destruct (Z.ltb_spec n 0) as [Hlt|_]; [lia|].
  rewrite firstn_firstn, length_firstn. f_equal. lia.
Qed.

Lemma StronglySorted_app_inv {A : Type} (R : A -> A -> Prop) (l1 l2 : list A) :
  StronglySorted R (l1 ++ l2) ->
  forall a b, In a l1 -> In b l2 -> R a b.
Proof.
  induction l1 as [|x t IH]; intros Hs a b Ha Hb; [contradiction|].
  inversion Hs as [|? ? Ht Hx]; subst.
  destruct Ha as [<- | Ha].
  - rewrite Forall_forall in Hx. apply Hx. apply in_or_app. now right.
  - now apply IH.
Qed.

(** X7.  For a non-negative required count [keepBestDomains] is
    idempotent: a second click on Keep Best Domains changes nothing. *)
Theorem keepBestDomains_idempotent (numDomainsRequired : Z) (s : State) :
  0 <= numDomainsRequired ->
  keepBestDomains numDomainsRequired (keepBestDomains numDomainsRequired s) =
  keepBestDomains numDomainsRequired s.
Proof.
  intros Hn. unfold keepBestDomains, setDomains.
  cbn [domains domainInput error]. f_equal.
  rewrite (sort_sorted_id compareDomains nameLength _ compareDomains_length).
  - now apply slice0_idempotent.
  - apply StronglySorted_firstn.
    apply (sort_StronglySorted compareDomains nameLength compareDomains_length).
Qed.

Lemma keepBestDomains_idempotent_witness :
  keepBestDomains 1
    (keepBestDomains 1
       (mkState "" [mkDomain "long.com" true; mkDomain "a.xyz" false] None)) =
  keepBestDomains 1
    (mkState "" [mkDomain "long.com" true; mkDomain "a.xyz" false] None).
Proof.
  apply (keepBestDomains_idempotent 1
    (mkState "" [mkDomain "long.com" true; mkDomain "a.xyz" false] None)).
  lia.
Defined.

(** X8.  What [keepBestDomains] keeps, for every cart and count: the kept
    entries followed by some dropped ones are a rearrangement of the old
    cart that ascends in name length and keeps names of equal length in
    their old order; so no kept name is longer than a dropped one.
    Suffix and availability play no part. *)
Theorem keepBestDomains_keeps_shortest (numDomainsRequired : Z) (s : State) :
  exists dropped,
    let kept := domains (keepBestDomains numDomainsRequired s) in
    Permutation (domains s) (kept ++ dropped)
    /\ StronglySorted (fun a b => nameLength a <= nameLength b) (kept ++ dropped)
    /\ (forall k, List.filter (fun d => nameLength d =? k) (kept ++ dropped) =
                  List.filter (fun d => nameLength d =? k) (domains s))
    /\ (forall a b, In a kept -> In b dropped -> nameLength a <= nameLength b).
Proof.
  unfold keepBestDomains, JS.slice0. cbn [domains setDomains].
  set (sorted := JS.sort compareDomains (domains s)).
  set (k := Z.to_nat _).
  exists (skipn k sorted). cbn zeta.
  assert (Hs : StronglySorted (fun a b => nameLength a <= nameLength b) sorted)
    by apply (sort_StronglySorted compareDomains nameLength compareDomains_length).
  repeat split.
  - rewrite firstn_skipn. apply sort_Permutation.
  - now rewrite firstn_skipn.
  - intros len. rewrite firstn_skipn.
    apply (sort_stable compareDomains nameLength compareDomains_length).
  - apply StronglySorted_app_inv. now rewrite firstn_skipn.
Qed.

(** X9.  With at least [numDomainsRequired] entries in the cart (and a
    non-negative count) [keepBestDomains] leaves exactly that many, so the
    Purchase button is enabled afterwards; with at most that many it drops
    nothing and only reorders. *)
Theorem keepBestDomains_count (numDomainsRequired : Z) (s : State) :
  (0 <= numDomainsRequired <= Z.of_nat (List.length (domains s)) ->
   isPurchaseDisabled numDomainsRequired
     (keepBestDomains numDomainsRequired s) = false)
  /\ (Z.of_nat (List.length (domains s)) <= numDomainsRequired ->
      Permutation (domains s)
        (domains (keepBestDomains numDomainsRequired s))).
Proof.
  split.
  - intros Hn. unfold isPurchaseDisabled.
    rewrite keepBestDomains_length by lia.
    apply negb_false_iff, Z.eqb_eq. lia.
  - intros Hn. unfold keepBestDomains, JS.slice0. cbn [domains setDomains].
    destruct (Z.ltb_spec numDomainsRequired 0) as [Hlt|_]; [lia|].
    rewrite (sort_length compareDomains).
    rewrite firstn_all2; [apply sort_Permutation|].
    rewrite (sort_length compareDomains). lia.
Qed.

Lemma keepBestDomains_count_witness :
  isPurchaseDisabled 1
    (keepBestDomains 1
       (mkState "" [mkDomain "long.com" true; mkDomain "a.xyz" false] None))
  = false.
Proof.
  apply (proj1 (keepBestDomains_count 1
    (mkState "" [mkDomain "long.com" true; mkDomain "a.xyz" false] None))).
  simpl. lia.
Defined.

Lemma keepBestDomains_keeps_shortest_witness :
  exists dropped,
    let kept := domains (keepBestDomains 1
      (mkState "" [mkDomain "long.com" true; mkDomain "a.xyz" false] None)) in
    Permutation [mkDomain "long.com" true; mkDomain "a.xyz" false]
                (kept ++ dropped)
    /\ StronglySorted (fun a b => nameLength a <= nameLength b) (kept ++ dropped)
    /\ (forall k, List.filter (fun d => nameLength d =? k) (kept ++ dropped) =
                  List.filter (fun d => nameLength d =? k)
                    [mkDomain "long.com" true; mkDomain "a.xyz" false])
    /\ (forall a b, In a kept -> In b dropped -> nameLength a <= nameLength b).
Proof.
  exact (keepBestDomains_keeps_shortest 1
    (mkState "" [mkDomain "long.com" true; mkDomain "a.xyz" false] None)).
Defined.

(** * The component with its store: events in any order *)

(** ** The store *)

Lemma readArray_app_old (h : Store) (a : list Domain) (r : Ref) :
  (r < List.length h)%nat -> readArray (h ++ [a])%list r = readArray h r.
Proof. intros Hr. unfold readArray. now apply app_nth1. Qed.

Lemma readArray_app_new (h : Store) (a : list Domain) :
  readArray (h ++ [a])%list (List.length h) = a.
Proof. unfold readArray. apply nth_middle. Qed.

Lemma writeArray_length (h : Store) (r : Ref) (a : list Domain) :
  List.length (writeArray h r a) = List.length h.
Proof.
  revert r; induction h as [|x t IH]; intros [|r]; simpl; auto.
Qed.

Lemma readArray_writeArray_same (h : Store) (r : Ref) (a : list Domain) :
  (r < List.length h)%nat -> readArray (writeArray h r a) r = a.
Proof.
  unfold readArray. revert r; induction h as [|x t IH]; intros [|r] Hr;
    simpl in *; try lia; [reflexivity|].
  apply IH. lia.
Qed.

Lemma readArray_writeArray_other (h : Store) (r r' : Ref) (a : list Domain) :
  r' <> r -> readArray (writeArray h r a) r' = readArray h r'.
Proof.
  unfold readArray. revert r r'; induction h as [|x t IH]; intros [|r] [|r'] Hne;
    simpl; try reflexivity; try congruence.
  apply IH. congruence.
Qed.

Lemma Forall_writeArray (P : list Domain -> Prop) (h : Store) (r : Ref)
    (a : list Domain) :
  Forall P h -> P a -> Forall P (writeArray h r a).
Proof.
  intros Hh Ha. revert r; induction Hh as [|x t Hx Ht IH]; intros [|r]; simpl;
    constructor; auto.
Qed.

Lemma Forall_readArray (P : list Domain -> Prop) (h : Store) (r : Ref) :
  Forall P h -> P [] -> P (readArray h r).
Proof.
  intros Hh Hnil. unfold readArray.
  destruct (nth_in_or_default r h []) as [Hin | ->]; [|exact Hnil].
  rewrite Forall_forall in Hh. now apply Hh.
Qed.

(** ** Well-formed carts under the array operations *)

Lemma cartOk_nil : cartOk [].
Proof. split; constructor. Qed.

Lemma cartOk_filter (p : Domain -> bool) (cart : list Domain) :
  cartOk cart -> cartOk (List.filter p cart).
Proof.
  intros [Hnd Hall]. split.
  - induction cart as [|x t IH]; [constructor|].
    simpl in Hnd. apply NoDup_cons_iff in Hnd. destruct Hnd as [Hx Hnd].
    inversion Hall; subst.
    cbn [List.filter]. destruct (p x); [|now apply IH].
    simpl. constructor; [|now apply IH].
    intros Hin. apply Hx. apply in_map_iff in Hin.
    destruct Hin as [d [Hd Hin]]. apply filter_In in Hin.
    apply in_map_iff. exists d. tauto.
  - apply Forall_forall. intros d Hd. apply filter_In in Hd.
    rewrite Forall_forall in Hall. now apply Hall.
Qed.

Lemma cartOk_Permutation (a b : list Domain) :
  Permutation a b -> cartOk a -> cartOk b.
Proof.
  intros Hp [Hnd Hall]. split.
  - eapply Permutation_NoDup; [|exact Hnd]. now apply Permutation_map.
  - eapply Permutation_Forall; eauto.
Qed.

Lemma cartOk_firstn (k : nat) (cart : list Domain) :
  cartOk cart -> cartOk (firstn k cart).
Proof.
  intros [Hnd Hall]. split.
  - rewrite <- (firstn_skipn k cart), map_app in Hnd.
    now apply NoDup_app_remove_r in Hnd.
  - apply Forall_forall. intros d Hd. rewrite Forall_forall in Hall.
    apply Hall. rewrite <- (firstn_skipn k cart). apply in_or_app. now left.
Qed.

Lemma cartOk_snoc (cart : list Domain) (d : Domain) :
  cartOk cart ->
  ~ In (name d) (map name cart) ->
  isNormalizedName (name d) = true ->
  cartOk (cart ++ [d]).
Proof.
  intros [Hnd Hall] Hfresh Hnorm. split.
  - rewrite map_app. simpl.
    apply (Permutation_NoDup (l := name d :: map name cart)).
    + apply Permutation_cons_append.
    + now constructor.
  - apply Forall_app. split; [exact Hall | now repeat constructor].
Qed.

Lemma cartOk_sort (cart : list Domain) :
  cartOk cart -> cartOk (JS.sort compareDomains cart).
Proof. apply cartOk_Permutation, sort_Permutation. Qed.

Lemma cartOk_slice0 (cart : list Domain) (n : Z) :
  cartOk cart -> cartOk (JS.slice0 cart n).
Proof. unfold JS.slice0. apply cartOk_firstn. Qed.

(** ** The invariant *)

Lemma suspendedOk_alloc (h : Store) (a : list Domain) (p : Suspended) :
  suspendedOk h p -> suspendedOk (h ++ [a])%list p.
Proof.
  intros [Hn [Hfresh Hr]]. repeat split; [exact Hn | |].
  - now rewrite readArray_app_old.
  - rewrite length_app. simpl. lia.
Qed.

Lemma configOk_setDomainsFresh (a : list Domain) (c : Config) :
  configOk c -> cartOk a -> configOk (setDomainsFresh a c).
Proof.
  intros [Hstore [Hsusp Hcell]] Ha. unfold setDomainsFresh. repeat split; cbn.
  - apply Forall_app. split; [exact Hstore|].
    constructor; [exact Ha | constructor].
  - eapply Forall_impl; [|exact Hsusp]. intros p. apply suspendedOk_alloc.
  - rewrite length_app. simpl. lia.
Qed.

Lemma configOk_cart (c : Config) : configOk c -> cartOk (domains (snapshot c)).
Proof.
  intros [Hstore _]. cbn. apply Forall_readArray; [exact Hstore | apply cartOk_nil].
Qed.

Lemma In_removeNth {A : Type} (i : nat) (l : list A) (x : A) :
  In x (removeNth i l) -> In x l.
Proof.
  unfold removeNth. revert i; induction l as [|y t IH]; intros [|i] Hin;
    simpl in *; try contradiction.
  - now right.
  - destruct Hin as [-> | Hin]; [now left | right; eauto].
Qed.

(** Every event keeps the invariant. *)
Lemma step_configOk (numDomainsRequired : Z) (ev : Event) (c : Config) :
  configOk c -> configOk (step numDomainsRequired ev c).
Proof.
  intros Hc. pose proof (configOk_cart c Hc) as Hcart.
  destruct Hc as [Hstore [Hsusp Hcell]].
  destruct ev as [value | | i b | n | | | ]; cbn [step].
  - repeat split; assumption.
  - destruct (addDomain (snapshot c)) as [s' o | s' n k] eqn:Hadd.
    + repeat split; assumption.
    + apply addDomain_Awaiting_inv in Hadd. destruct Hadd as [Hn [Hfresh _]].
      repeat split; cbn; try assumption.
      apply Forall_app. split; [exact Hsusp|].
      constructor; [|constructor]. repeat split; assumption.
  - destruct (nth_error (suspended c) i) as [p|] eqn:Hp.
    + apply nth_error_In in Hp.
      assert (Hpok : suspendedOk (store c) p)
        by (rewrite Forall_forall in Hsusp; now apply Hsusp).
      destruct Hpok as [Hn [Hfresh Hr]].
      repeat split; cbn.
      * apply Forall_app. split; [exact Hstore|].
        constructor; [|constructor].
        apply cartOk_snoc; cbn; try assumption.
        apply Forall_readArray; [exact Hstore | apply cartOk_nil].
      * apply Forall_forall. intros q Hq. apply suspendedOk_alloc.
        rewrite Forall_forall in Hsusp. apply Hsusp.
        eapply In_removeNth; eauto.
      * rewrite length_app. simpl. lia.
    + repeat split; assumption.
  - apply configOk_setDomainsFresh; [repeat split; assumption|].
    unfold removeDomain, JS.filter. cbn [domains setDomains].
    now apply cartOk_filter.
  - apply configOk_setDomainsFresh; [repeat split; assumption | apply cartOk_nil].
  - apply configOk_setDomainsFresh; [repeat split; assumption|].
    unfold removeUnavailableDomains, JS.filter. cbn [domains setDomains].
    now apply cartOk_filter.
  - apply configOk_setDomainsFresh.
    + repeat split; cbn.
      * apply Forall_writeArray; [exact Hstore | now apply cartOk_sort].
      * apply Forall_forall. intros p Hp. rewrite Forall_forall in Hsusp.
        destruct (Hsusp p Hp) as [Hn [Hfresh Hr]].
        repeat split; [exact Hn | | now rewrite writeArray_length].
        destruct (Nat.eq_dec (capturedDomains p) (domainsCell c)) as [E|E].
        -- rewrite E in *. rewrite readArray_writeArray_same by exact Hcell.
           intros Hin. apply Hfresh.
           eapply Permutation_in; [|exact Hin].
           apply Permutation_map, Permutation_sym, sort_Permutation.
        -- now rewrite readArray_writeArray_other.
      * now rewrite writeArray_length.
    + now apply cartOk_slice0, cartOk_sort.
Qed.

Lemma initialConfig_ok : configOk initialConfig.
Proof.
  repeat split; cbn; try lia; repeat constructor.
Qed.

Lemma run_configOk (numDomainsRequired : Z) (evs : list Event) (c : Config) :
  configOk c -> configOk (run numDomainsRequired evs c).
Proof.
  unfold run. revert c; induction evs as [|ev evs IH]; intros c Hc; [exact Hc|].
  cbn [fold_left]. apply IH. now apply step_configOk.
Qed.

Lemma isNormalizedName_iff (n : string) :
  isNormalizedName n = true <->
  JS.trim n = n
  /\ JS.toLowerCase n = n
  /\ (exists p suffix, In suffix [".com"; ".xyz"; ".app"] /\ n = p ++ suffix)
  /\ ~ (exists p q, n = p ++ "https://" ++ q).
Proof.
  unfold isNormalizedName.
  rewrite !andb_true_iff, !String.eqb_eq, tldRegexTest_iff, negb_true_iff,
    <- includes_iff, not_true_iff_false.
  tauto.
Qed.

Lemma run_app (numDomainsRequired : Z) (evs1 evs2 : list Event) (c : Config) :
  run numDomainsRequired (evs1 ++ evs2) c =
  run numDomainsRequired evs2 (run numDomainsRequired evs1 c).
Proof. unfold run. apply fold_left_app. Qed.

(** X10.  Whatever events arrive, in whatever order and however the
    suspended adds interleave with them, no two entries of the cart have
    the same name; so the rows of [DomainCart] have distinct React keys. *)
Theorem reachable_cart_unique_names (numDomainsRequired : Z) (evs : list Event) :
  let cart := domains (snapshot (run numDomainsRequired evs initialConfig)) in
  NoDup (map name cart) /\ NoDup (map rowKey (DomainCart cart)).
Proof.
  cbn zeta.
  pose proof (configOk_cart _
    (run_configOk numDomainsRequired evs _ initialConfig_ok)) as [Hnd _].
  split; [exact Hnd|].
  unfold DomainCart. rewrite map_map. exact Hnd.
Qed.

(** X11.  Whatever events arrive, every name in the cart is trimmed and
    lower-case, ends in [.com], [.xyz] or [.app] and holds no [https://]. *)
Theorem reachable_cart_normalized_names
    (numDomainsRequired : Z) (evs : list Event) :
  Forall (fun d =>
            JS.trim (name d) = name d
            /\ JS.toLowerCase (name d) = name d
            /\ (exists p suffix,
                   In suffix [".com"; ".xyz"; ".app"] /\ name d = p ++ suffix)
            /\ ~ (exists p q, name d = p ++ "https://" ++ q))
         (domains (snapshot (run numDomainsRequired evs initialConfig))).
Proof.
  pose proof (configOk_cart _
    (run_configOk numDomainsRequired evs _ initialConfig_ok)) as [_ Hall].
  eapply Forall_impl; [|exact Hall].
  intros d Hd. now apply isNormalizedName_iff.
Qed.

Lemma reachable_cart_normalized_names_witness :
  Forall (fun d =>
            JS.trim (name d) = name d
            /\ JS.toLowerCase (name d) = name d
            /\ (exists p suffix,
                   In suffix [".com"; ".xyz"; ".app"] /\ name d = p ++ suffix)
            /\ ~ (exists p q, name d = p ++ "https://" ++ q))
         (domains (snapshot
            (run 2 [Change " Shop.COM"; ClickAdd; Change "b.xyz"; ClickAdd;
                    Resolve 1 false; ClickKeepBest; Resolve 0 true]
                 initialConfig))).
Proof.
  exact (reachable_cart_normalized_names 2
    [Change " Shop.COM"; ClickAdd; Change "b.xyz"; ClickAdd;
     Resolve 1 false; ClickKeepBest; Resolve 0 true]).
Defined.





(** ** Events during a suspended add *)

Lemma step_ClickAdd_suspends (numDomainsRequired : Z) (c : Config) :
  let domain := JS.toLowerCase (JS.trim (inputCell c)) in
  isNormalizedName domain = true ->
  ~ In domain (map name (domains (snapshot c))) ->
  step numDomainsRequired ClickAdd c =
  mkConfig (store c) (inputCell c) (domainsCell c) None
           (suspended c ++ [mkSuspended domain (domainsCell c)]).
Proof.
  cbn zeta. intros Hnorm Hfresh. cbn [step].
  unfold isNormalizedName in Hnorm.
  apply andb_true_iff in Hnorm. destruct Hnorm as [Hnorm Hproto].
  apply andb_true_iff in Hnorm. destruct Hnorm as [_ Hsuffix].
  apply negb_true_iff in Hproto.
  rewrite (addDomain_awaits (snapshot c)); [reflexivity | assumption..|].
  apply not_true_is_false. intros H. apply some_name_true in H.
  destruct H as [d [Hin Hd]]. apply Hfresh.
  cbn [snapshot domainInput] in Hd. rewrite <- Hd. now apply in_map.
Qed.

Lemma firstSuspendedIntact_alloc (p : Suspended) (captured a : list Domain)
    (h : Store) (input : string) (r : Ref) (err : option string)
    (susp rest : list Suspended) :
  readArray h (capturedDomains p) = captured ->
  (capturedDomains p < List.length h)%nat ->
  firstSuspendedIntact p captured
    (mkConfig (h ++ [a])%list input r err (p :: rest)).
Proof.
  intros Hread Hr. repeat split; cbn [store suspended].
  - now exists rest.
  - now rewrite readArray_app_old.
  - rewrite length_app. simpl. lia.
Qed.

Lemma step_firstSuspendedIntact (numDomainsRequired : Z) (ev : Event)
    (p : Suspended) (captured : list Domain) (c : Config) :
  sparesFirstSuspended ev = true ->
  firstSuspendedIntact p captured c ->
  firstSuspendedIntact p captured (step numDomainsRequired ev c).
Proof.
  intros Hev [[rest Hsusp] [Hread Hr]].
  destruct ev as [value | | i b | n | | | ]; cbn [step]; try discriminate.
  - repeat split; cbn; eauto.
  - destruct (addDomain (snapshot c)); repeat split; cbn; eauto.
    rewrite Hsusp. now eexists.
  - destruct i as [|i]; [discriminate|]. rewrite Hsusp. cbn [nth_error].
    destruct (nth_error rest i).
    + unfold removeNth. cbn [firstn skipn app].
      now apply firstSuspendedIntact_alloc.
    + repeat split; eauto.
  - unfold setDomainsFresh. rewrite Hsusp.
    now apply firstSuspendedIntact_alloc.
  - unfold setDomainsFresh. rewrite Hsusp.
    now apply firstSuspendedIntact_alloc.
  - unfold setDomainsFresh. rewrite Hsusp.
    now apply firstSuspendedIntact_alloc.
Qed.

Lemma run_firstSuspendedIntact (numDomainsRequired : Z) (evs : list Event)
    (p : Suspended) (captured : list Domain) (c : Config) :
  forallb sparesFirstSuspended evs = true ->
  firstSuspendedIntact p captured c ->
  firstSuspendedIntact p captured (run numDomainsRequired evs c).
Proof.
  unfold run. revert c; induction evs as [|ev evs IH]; intros c Hevs Hc;
    [exact Hc|].
  cbn [forallb] in Hevs. apply andb_true_iff in Hevs. destruct Hevs as [Hev Hevs].
  cbn [fold_left]. apply IH; [exact Hevs|].
  now apply step_firstSuspendedIntact.
Qed.

(** X13.  An add that was suspended overwrites the cart when its promise
    resolves: the cart becomes the one the add was called on plus the new
    entry, and the input field is emptied, whatever was typed, deleted,
    cleared, pruned or added by other adds in between.  Edits made during
    the wait are lost.  (In between: any events except an in-place sort
    and the resolution of this add itself.) *)
Theorem suspended_add_overwrites_cart
    (numDomainsRequired : Z) (c : Config) (value : string)
    (between : list Event) (isAvailable : bool) :
  let cart := domains (snapshot c) in
  let domain := JS.toLowerCase (JS.trim value) in
  let c' := run numDomainsRequired
              ([Change value; ClickAdd] ++ between ++ [Resolve 0 isAvailable]) c in
  suspended c = [] ->
  (domainsCell c < List.length (store c))%nat ->
  isNormalizedName domain = true ->
  ~ In domain (map name cart) ->
  forallb sparesFirstSuspended between = true ->
  domains (snapshot c') = (cart ++ [mkDomain domain isAvailable])%list
  /\ domainInput (snapshot c') = "".
Proof.
  cbn zeta. intros Hsusp Hcell Hnorm Hfresh Hbetween.
  rewrite !run_app.
  set (p := mkSuspended (JS.toLowerCase (JS.trim value)) (domainsCell c)).
  assert (H1 : run numDomainsRequired [Change value; ClickAdd] c =
               mkConfig (store c) value (domainsCell c) None [p]).
  { unfold run. cbn [fold_left].
    change (step numDomainsRequired (Change value) c)
      with (mkConfig (store c) value (domainsCell c) (errorCell c) (suspended c)).
    rewrite step_ClickAdd_suspends;
      cbn [store inputCell domainsCell errorCell suspended];
      [now rewrite Hsusp | assumption..]. }
  rewrite H1.
  assert (H2 : firstSuspendedIntact p (domains (snapshot c))
                 (mkConfig (store c) value (domainsCell c) None [p])).
  { repeat split; cbn; eauto. }
  apply (run_firstSuspendedIntact numDomainsRequired between) in H2;
    [|exact Hbetween].
  destruct H2 as [[rest Hrest] [Hread Hr]].
  set (c2 := run numDomainsRequired between _) in *.
  assert (H3 : run numDomainsRequired [Resolve 0 isAvailable] c2 =
               mkConfig (store c2 ++ [domains (snapshot c)
                                      ++ [mkDomain (capturedDomain p) isAvailable]])%list
                        "" (List.length (store c2)) (errorCell c2) rest).
  { unfold run. cbn [fold_left step]. rewrite Hrest. cbn [nth_error].
    now rewrite Hread. }
  rewrite H3. unfold snapshot at 1 3.
  cbn [store inputCell domainsCell errorCell domains domainInput].
  rewrite readArray_app_new. split; reflexivity.
Qed.

Lemma suspended_add_overwrites_cart_witness :
  domains (snapshot (run 2
    ([Change "a.com"; ClickAdd]
     ++ [Change "b.com"; ClickAdd; Resolve 1 true; ClickDeleteName "b.com";
         Change "typing"]
     ++ [Resolve 0 false])
    initialConfig)) = [mkDomain "a.com" false].
Proof.
  apply (suspended_add_overwrites_cart 2 initialConfig "a.com"
    [Change "b.com"; ClickAdd; Resolve 1 true; ClickDeleteName "b.com";
     Change "typing"] false).
  - reflexivity.
  - simpl. lia.
  - reflexivity.
  - simpl. tauto.
  - reflexivity.
Defined.

(** X14.  Keep Best Domains clicked while an add is suspended sorts the
    very array the add holds.  When the add resolves, the cart is the
    whole old cart in sorted order plus the new entry: the cut is undone
    and the reordering stays. *)
Theorem keepBest_during_suspended_add
    (numDomainsRequired : Z) (c : Config) (value : string) (isAvailable : bool) :
  let cart := domains (snapshot c) in
  let domain := JS.toLowerCase (JS.trim value) in
  let c' := run numDomainsRequired
              [Change value; ClickAdd; ClickKeepBest; Resolve 0 isAvailable] c in
  suspended c = [] ->
  (domainsCell c < List.length (store c))%nat ->
  isNormalizedName domain = true ->
  ~ In domain (map name cart) ->
  domains (snapshot c') =
  (JS.sort compareDomains cart ++ [mkDomain domain isAvailable])%list.
Proof.
  cbn zeta. intros Hsusp Hcell Hnorm Hfresh.
  unfold run. cbn [fold_left].
  change (step numDomainsRequired (Change value) c)
    with (mkConfig (store c) value (domainsCell c) (errorCell c) (suspended c)).
  rewrite step_ClickAdd_suspends; cbn [inputCell snapshot domains store
    domainsCell errorCell suspended]; [|assumption..].
  rewrite Hsusp. cbn [step app setDomainsFresh store inputCell domainsCell
    errorCell suspended nth_error capturedDomains capturedDomain].
  unfold snapshot. cbn [store domainsCell domains].
  rewrite readArray_app_new.
  rewrite readArray_app_old by (now rewrite writeArray_length).
  now rewrite readArray_writeArray_same.
Qed.

Lemma keepBest_during_suspended_add_witness :
  domains (snapshot (run 1
    [Change "c.com"; ClickAdd; ClickKeepBest; Resolve 0 true]
    (mkConfig [[mkDomain "long.com" true; mkDomain "a.xyz" false]] "" 0%nat
              None []))) =
  [mkDomain "a.xyz" false; mkDomain "long.com" true; mkDomain "c.com" true].
Proof.
  apply (keepBest_during_suspended_add 1
    (mkConfig [[mkDomain "long.com" true; mkDomain "a.xyz" false]] "" 0%nat
              None []) "c.com" true).
  - reflexivity.
  - simpl. lia.
  - reflexivity.
  - simpl. intuition discriminate.
Defined.

(** ** Adding a name the cart already has *)

Lemma addDomain_returns_duplicate (s : State) :
  let domain := JS.toLowerCase (JS.trim (domainInput s)) in
  tldRegexTest domain = true ->
  JS.includes domain "https://" = false ->
  JS.some (fun d => String.eqb (name d) domain) (domains s) = true ->
  addDomain s = Returned (setError (Some duplicateMessage) s) RejectedDuplicate.
Proof.
  cbn zeta. intros Hsuffix Hproto Hdup.
  unfold addDomain, validateDomain.
  rewrite toLowerCase_idempotent, Hsuffix, Hproto. cbn.
  now rewrite Hdup.
Qed.

(** X15.  In any cart the component can reach, every name is its own
    normal form, and an input that normalizes to the name of a cart entry
    (the name itself, or any re-cased or padded spelling of it) is rejected
    as a duplicate: the oracle is not asked and the cart stays. *)
Theorem readding_cart_name_is_duplicate
    (numDomainsRequired : Z) (evs : list Event)
    (isDomainAvailable : string -> bool) (d : Domain) :
  let shown := snapshot (run numDomainsRequired evs initialConfig) in
  In d (domains shown) ->
  JS.toLowerCase (JS.trim (name d)) = name d
  /\ forall value,
       JS.toLowerCase (JS.trim value) = name d ->
       addDomainWith isDomainAvailable (handleChange value shown) =
       (setError (Some duplicateMessage) (handleChange value shown),
        RejectedDuplicate, []).
Proof.
  cbn zeta. intros Hin.
  pose proof (configOk_cart _
    (run_configOk numDomainsRequired evs _ initialConfig_ok)) as [_ Hall].
  rewrite Forall_forall in Hall. specialize (Hall d Hin).
  unfold isNormalizedName in Hall. rewrite !andb_true_iff in Hall.
  destruct Hall as [[[Htrim Hlower] Hsuffix] Hproto].
  apply String.eqb_eq in Htrim, Hlower. apply negb_true_iff in Hproto.
  split; [now rewrite Htrim, Hlower|].
  intros value Hvalue. unfold addDomainWith.
  rewrite addDomain_returns_duplicate; [reflexivity | | |];
    cbn [handleChange setDomainInput domainInput domains]; rewrite Hvalue;
    try assumption.
  apply some_name_true. now exists d.
Qed.

Lemma readding_cart_name_is_duplicate_witness :
  JS.toLowerCase (JS.trim "shop.com") = "shop.com"
  /\ forall value,
       JS.toLowerCase (JS.trim value) = "shop.com" ->
       addDomainWith (fun _ => true)
         (handleChange value
            (snapshot (run 2 [Change " Shop.COM"; ClickAdd; Resolve 0 true]
                           initialConfig))) =
       (setError (Some duplicateMessage)
          (handleChange value
             (snapshot (run 2 [Change " Shop.COM"; ClickAdd; Resolve 0 true]
                            initialConfig))),
        RejectedDuplicate, []).
Proof.
  apply (readding_cart_name_is_duplicate 2
    [Change " Shop.COM"; ClickAdd; Resolve 0 true] (fun _ => true)
    (mkDomain "shop.com" true)).
  simpl. auto.
Defined.

(** X16.  [removeDomain] leaves no entry of the given name and keeps every
    entry of another name, in the order they had.  The name is compared as
    it is given, without trimming or lower-casing. *)
Theorem removeDomain_removes_name (domainToRemove : string) (s : State) :
  let cart' := domains (removeDomain domainToRemove s) in
  ~ In domainToRemove (map name cart')
  /\ Subsequence cart' (domains s)
  /\ (forall d, In d (domains s) -> name d <> domainToRemove -> In d cart').
Proof.
  cbn zeta. unfold removeDomain. cbn [domains setDomains]. repeat split.
  - intros Hin. apply in_map_iff in Hin. destruct Hin as [d [Hd Hin]].
    unfold JS.filter in Hin. apply filter_In in Hin. destruct Hin as [_ Hne].
    apply negb_true_iff, String.eqb_neq in Hne. contradiction.
  - apply filter_Subsequence.
  - intros d Hin Hne. unfold JS.filter. apply filter_In. split; [exact Hin|].
    now apply negb_true_iff, String.eqb_neq.
Qed.

Lemma removeDomain_removes_name_witness :
  In (mkDomain "a.com" true)
     (domains (removeDomain "A.com"
        (mkState "" [mkDomain "a.com" true; mkDomain "b.xyz" false] None))).
Proof.
  apply (removeDomain_removes_name "A.com"
    (mkState "" [mkDomain "a.com" true; mkDomain "b.xyz" false] None)).
  - simpl. auto.
  - discriminate.
Defined.
